(** * go-ruler: the rule evaluation engine of [ruler.go]

    A shallow embedding of [pluck], [compare], [inequality], [regexp],
    the four [compareX] helpers and [Ruler.Test], followed by the
    properties of the engine that the specification states.

    Conventions of the embedding.
    - A Go [interface{}] is a [value]: [VNil] is the nil interface, every
      other constructor carries the dynamic type together with the data.
    - A Go [map[string]interface{}] is a [gmap string value]; indexing a
      missing key yields the zero value of [interface{}], that is [VNil].
    - A Go function returning [(bool, error)] returns a pair
      [bool * option error]; a run-time panic is the outcome [Panic].
    - [strconv.ParseFloat], [regexp.Compile] and [Regexp.MatchString]
      belong to the Go standard library; the engine is parametrised by
      them through the class [GoLib]. *)

From Stdlib Require Import ZArith Lia Ascii String Floats.PrimFloat.
From stdpp Require Import base option list strings gmap.

Set Warnings "-register-all".

(** ** Dynamic values *)

(** The integer and floating point types of Go, by signedness and width.
    [UWord] and [IWord] are the platform-sized [uint] and [int]. *)
Inductive uwidth : Type := U8 | U16 | U32 | U64 | UWord.
Inductive iwidth : Type := I8 | I16 | I32 | I64 | IWord.
Inductive fwidth : Type := F32 | F64.

(** What [reflect.TypeOf] can return for the values of the model. *)
Inductive gotype : Type :=
| TBool
| TUint (w : uwidth)
| TInt (w : iwidth)
| TFloat (w : fwidth)
| TString
| TMap      (* map[string]interface {} *)
| TSlice.   (* []interface {} *)

#[global] Instance uwidth_eq_dec : EqDecision uwidth.
Proof. solve_decision. Defined.
#[global] Instance iwidth_eq_dec : EqDecision iwidth.
Proof. solve_decision. Defined.
#[global] Instance fwidth_eq_dec : EqDecision fwidth.
Proof. solve_decision. Defined.
#[global] Instance gotype_eq_dec : EqDecision gotype.
Proof. solve_decision. Defined.

(** An [interface{}] value: nil, or a boolean, an integer, a floating
    point number, a string, a [map[string]interface{}] or a
    [[]interface{}], the values a decoded JSON document or a Go literal
    of scalars holds.  Integers are mathematical integers tagged with
    their Go type (no arithmetic is done on them, and no property below
    depends on their range); a float32 is kept as the binary64 number it
    denotes. *)
Inductive value : Type :=
| VNil
| VBool (b : bool)
| VUint (w : uwidth) (n : Z)
| VInt (w : iwidth) (n : Z)
| VFloat (w : fwidth) (x : float)
| VString (s : string)
| VMap (m : gmap string value)
| VSlice (l : list value).

(** A document, [map[string]interface{}]. *)
Abbreviation document := (gmap string value).

(** [v == nil] on an interface value. *)
Definition is_nil (v : value) : bool :=
  match v with VNil => true | _ => false end.

(** [m[k]]: the stored value, or the zero value [nil] when [k] is not a
    key of [m]. *)
Definition index (m : document) (k : string) : value :=
  default VNil (m !! k).

(** [reflect.TypeOf(v)]; [None] is the nil [reflect.Type] that the nil
    interface yields. *)
Definition typeOf (v : value) : option gotype :=
  match v with
  | VNil => None
  | VBool _ => Some TBool
  | VUint w _ => Some (TUint w)
  | VInt w _ => Some (TInt w)
  | VFloat w _ => Some (TFloat w)
  | VString _ => Some TString
  | VMap _ => Some TMap
  | VSlice _ => Some TSlice
  end.

(** [reflect.Type.String]. *)
Definition type_String (t : gotype) : string :=
  match t with
  | TBool => "bool"
  | TUint U8 => "uint8"
  | TUint U16 => "uint16"
  | TUint U32 => "uint32"
  | TUint U64 => "uint64"
  | TUint UWord => "uint"
  | TInt I8 => "int8"
  | TInt I16 => "int16"
  | TInt I32 => "int32"
  | TInt I64 => "int64"
  | TInt IWord => "int"
  | TFloat F32 => "float32"
  | TFloat F64 => "float64"
  | TString => "string"
  | TMap => "map[string]interface {}"
  | TSlice => "[]interface {}"
  end.

(** [reflect.Type.Comparable]: maps and slices are the types of the
    model on which [==] is not defined. *)
Definition Comparable (t : gotype) : bool :=
  match t with
  | TMap | TSlice => false
  | _ => true
  end.

(** ** Outcomes *)

(** A Go call either returns or panics. *)
Inductive exec (A : Type) : Type :=
| Done (a : A)
| Panic.
Arguments Done {A} a.
Arguments Panic {A}.

Definition bind {A B : Type} (m : exec A) (k : A -> exec B) : exec B :=
  match m with
  | Done a => k a
  | Panic => Panic
  end.

Notation "'do' x <- m ; k" := (bind m (fun x => k))
  (at level 10, x pattern, m at level 100, k at level 200).

(** An [error] is the message it was built from. *)
Definition error : Type := string.

(** ** [strings.Split(s, sep)] for a one-byte separator *)

Fixpoint strings_Split (s : string) (sep : ascii) : list string :=
  match s with
  | EmptyString => [EmptyString]
  | String c s' =>
      if Ascii.eqb c sep then EmptyString :: strings_Split s' sep
      else match strings_Split s' sep with
           | [] => [String c EmptyString]
           | p :: ps => String c p :: ps
           end
  end.

(** ** [pluck] (ruler.go:240-278) *)

(** [parts[i]]; every index [pluck] uses is within bounds. *)
Definition part (parts : list string) (i : nat) : string :=
  default EmptyString (parts !! i).

(** The loop [for i := 1; i < len(parts)-1; i++] of [pluck], entered at
    index [i] with [n] iterations to go.  [None] is a [return nil] from
    inside the loop, [Some prev] the map held by [prev] at loop exit. *)
Fixpoint pluck_loop (parts : list string) (i n : nat) (prev : document)
  : option document :=
  match n with
  | O => Some prev
  | S n' =>
      let cp := part parts i in
      if is_nil (index prev cp) then None
      else match index prev cp with
           | VMap m => pluck_loop parts (S i) n' m
           | _ => None
           end
  end.

Definition pluck (o : document) (path : string) : value :=
  let parts := strings_Split path "."%char in
  if (length parts =? 1)%nat && negb (is_nil (index o (part parts 0))) then
    index o (part parts 0)
  else if (1 <? length parts)%nat && negb (is_nil (index o (part parts 0))) then
    match index o (part parts 0) with
    | VMap prev0 =>
        match pluck_loop parts 1 (length parts - 2) prev0 with
        | None => VNil
        | Some prev =>
            if negb (is_nil (index prev (part parts (length parts - 1)))) then
              index prev (part parts (length parts - 1))
            else VNil
        end
    | _ => VNil
    end
  else VNil.

(** *** Path resolution as the specification words it

    The path is split on ['.'] and the segments are walked in order: for
    every segment but the last the current node must be a mapping that
    has the key, the last segment's value is returned whatever its
    kind.  [None] is "absent". *)
Fixpoint resolve_segments (node : document) (seg : string) (more : list string)
  : option value :=
  match more with
  | [] => node !! seg
  | seg' :: more' =>
      match node !! seg with
      | Some (VMap child) => resolve_segments child seg' more'
      | _ => None
      end
  end.

Definition resolve (o : document) (path : string) : option value :=
  match strings_Split path "."%char with
  | [] => None
  | seg :: more => resolve_segments o seg more
  end.

(** The walk reaches a key whose stored value is nil, every key before
    it being present and holding a mapping. *)
Inductive nil_along : document -> list string -> Prop :=
| nil_here (m : document) (seg : string) (more : list string) :
    m !! seg = Some VNil -> nil_along m (seg :: more)
| nil_below (m child : document) (seg : string) (more : list string) :
    m !! seg = Some (VMap child) -> nil_along child more ->
    nil_along m (seg :: more).

(** [resolve_segments] over the whole list of segments that remain. *)
Definition resolve_list (node : document) (segs : list string) : option value :=
  match segs with
  | [] => None
  | seg :: more => resolve_segments node seg more
  end.

(** The value [pluck] returns once the loop is over, [last] being the
    final segment. *)
Definition pluck_finish (r : option document) (last : string) : value :=
  match r with
  | None => VNil
  | Some prev => if negb (is_nil (index prev last)) then index prev last else VNil
  end.

(** ** Rules *)

(** Modelled from the spec: the declaration of the struct [Rule] is not
    in [ruler.go].  The fields and their order are those of the
    positional literal [Rule{"", path, nil}] in [Ruler.Rule] and of the
    selectors [f.Comparator], [f.Path] and [f.Value]; the specification
    describes a rule as a path, a comparator token and an expected
    dynamic value. *)
Record Rule : Type := {
  Comparator : string;
  Path : string;
  Value : value
}.

(** [rules] holds pointers in the source; they are taken to be non-nil,
    as [NewRuler] and [Ruler.Rule] build them. *)
Record Ruler : Type := { rules : list Rule }.

(** The comparator codes (ruler.go:16-29), [iota] from 0. *)
Module Op.
Definition eq : Z := 0.
Definition neq : Z := 1.
Definition gt : Z := 2.
Definition gte : Z := 3.
Definition lt : Z := 4.
Definition lte : Z := 5.
Definition exists_ : Z := 6.
Definition nexists : Z := 7.
Definition regex : Z := 8.
Definition matches : Z := 9.
Definition contains : Z := 10.
Definition ncontains : Z := 11.
End Op.

(** The errors of the engine, under the names the specification gives
    them, with the messages of the source. *)
Definition ErrMissingProperty (path : string) : error :=
  "did not find property (" +:+ path +:+ ") on map".
Definition ErrUnknownComparator : error := "unknown comparator %s".
Definition ErrTypeMismatch : error :=
  "Value types are mismatched, cannot compare values".
Definition ErrUnsupportedType : error := "Invalid type for inequality comparison".
Definition ErrExpectedNotText : error :=
  "expected value not actually a string, bailing".
Definition ErrActualNotText : error :=
  "actual value not actually a string, bailing".
Definition ErrInvalidPattern : error := "regexp is bad, bailing".

(** ** The standard library functions the engine calls *)

Class GoLib : Type := {
  (** [strconv.ParseFloat(s, 64)]; [None] when [err != nil]. *)
  strconv_ParseFloat : string -> option float;
  (** [*regexp.Regexp] *)
  Regexp : Type;
  (** [regexp.Compile(expr)]; [None] when [err != nil]. *)
  regexp_Compile : string -> option Regexp;
  (** [re.MatchString(s)] *)
  Regexp_MatchString : Regexp -> string -> bool
}.

(** ** Type assertions and the comparisons *)

(** [v.(uint64)], [v.(int64)], [v.(float64)], [v.(string)] in their
    one-result form: a value of any other dynamic type panics. *)
Definition assert_uint64 (v : value) : exec Z :=
  match v with VUint U64 n => Done n | _ => Panic end.
Definition assert_int64 (v : value) : exec Z :=
  match v with VInt I64 n => Done n | _ => Panic end.
Definition assert_float64 (v : value) : exec float :=
  match v with VFloat F64 x => Done x | _ => Panic end.
Definition assert_string (v : value) : exec string :=
  match v with VString s => Done s | _ => Panic end.

(** The ordering operators of Go on float64. *)
Definition float_gt (x y : float) : bool := PrimFloat.ltb y x.
Definition float_ge (x y : float) : bool := PrimFloat.leb y x.
Definition float_lt (x y : float) : bool := PrimFloat.ltb x y.
Definition float_le (x y : float) : bool := PrimFloat.leb x y.

(** [compareUint] (ruler.go:280-298). *)
Definition compareUint (op : Z) (actual expected : value) : exec bool :=
  do c0 <- assert_uint64 actual;
  do c1 <- assert_uint64 expected;
  Done (if (op =? Op.gt)%Z then (c0 >? c1)%Z
        else if (op =? Op.gte)%Z then (c0 >=? c1)%Z
        else if (op =? Op.lt)%Z then (c0 <? c1)%Z
        else if (op =? Op.lte)%Z then (c0 <=? c1)%Z
        else false).

(** [compareInt] (ruler.go:300-318). *)
Definition compareInt (op : Z) (actual expected : value) : exec bool :=
  do c0 <- assert_int64 actual;
  do c1 <- assert_int64 expected;
  Done (if (op =? Op.gt)%Z then (c0 >? c1)%Z
        else if (op =? Op.gte)%Z then (c0 >=? c1)%Z
        else if (op =? Op.lt)%Z then (c0 <? c1)%Z
        else if (op =? Op.lte)%Z then (c0 <=? c1)%Z
        else false).

(** [compareFloat] (ruler.go:320-338). *)
Definition compareFloat (op : Z) (actual expected : value) : exec bool :=
  do c0 <- assert_float64 actual;
  do c1 <- assert_float64 expected;
  Done (if (op =? Op.gt)%Z then float_gt c0 c1
        else if (op =? Op.gte)%Z then float_ge c0 c1
        else if (op =? Op.lt)%Z then float_lt c0 c1
        else if (op =? Op.lte)%Z then float_le c0 c1
        else false).

(** [actual == expected] on two interface values: false when the dynamic
    types differ, the comparison of the data when they agree, a panic
    when they agree on a type that is not comparable. *)
Definition iface_eq (actual expected : value) : exec bool :=
  match actual, expected with
  | VNil, VNil => Done true
  | VBool a, VBool e => Done (Bool.eqb a e)
  | VUint wa a, VUint we e => Done (bool_decide (wa = we) && (a =? e)%Z)
  | VInt wa a, VInt we e => Done (bool_decide (wa = we) && (a =? e)%Z)
  | VFloat wa a, VFloat we e => Done (bool_decide (wa = we) && PrimFloat.eqb a e)
  | VString a, VString e => Done (a =? e)%string
  | VMap _, VMap _ => Panic
  | VSlice _, VSlice _ => Panic
  | _, _ => Done false
  end.

Section Engine.
Context {lib : GoLib}.

(** [compareStr] (ruler.go:340-367). *)
Definition compareStr (op : Z) (actual expected : value) : exec bool :=
  do c0 <- assert_string actual;
  do c1 <- assert_string expected;
  match strconv_ParseFloat c0 with
  | None => Done false
  | Some actualFloat =>
      match strconv_ParseFloat c1 with
      | None => Done false
      | Some expectedFloat =>
          Done (if (op =? Op.gt)%Z then float_gt actualFloat expectedFloat
                else if (op =? Op.gte)%Z then float_ge actualFloat expectedFloat
                else if (op =? Op.lt)%Z then float_lt actualFloat expectedFloat
                else if (op =? Op.lte)%Z then float_le actualFloat expectedFloat
                else false)
      end
  end.

(** [inequality] (ruler.go:177-215): the types of the two operands must
    be the same; the name of that type selects the comparison. *)
Definition inequality (op : Z) (actual expected : value)
  : exec (bool * option error) :=
  if decide (typeOf actual <> typeOf expected) then
    Done (false, Some ErrTypeMismatch)
  else
    match typeOf actual with
    | None => Panic   (* String() on the nil reflect.Type *)
    | Some ty =>
        let t := type_String ty in
        if (t =? "uint8")%string then
          do b <- compareUint op actual expected; Done (b, None)
        else if (t =? "uint16")%string then
          do b <- compareUint op actual expected; Done (b, None)
        else if (t =? "uint32")%string then
          do b <- compareUint op actual expected; Done (b, None)
        else if (t =? "uint64")%string then
          do b <- compareUint op actual expected; Done (b, None)
        else if (t =? "uint")%string then
          do b <- compareUint op actual expected; Done (b, None)
        else if (t =? "int8")%string then
          do b <- compareInt op actual expected; Done (b, None)
        else if (t =? "int16")%string then
          do b <- compareInt op actual expected; Done (b, None)
        else if (t =? "int32")%string then
          do b <- compareInt op actual expected; Done (b, None)
        else if (t =? "int64")%string then
          do b <- compareInt op actual expected; Done (b, None)
        else if (t =? "int")%string then
          do b <- compareInt op actual expected; Done (b, None)
        else if (t =? "float32")%string then
          do b <- compareFloat op actual expected; Done (b, None)
        else if (t =? "float64")%string then
          do b <- compareFloat op actual expected; Done (b, None)
        else if (t =? "string")%string then
          do b <- compareStr op actual expected; Done (b, None)
        else Done (false, Some ErrUnsupportedType)
    end.

(** The method [regexp] of [Ruler] (ruler.go:217-236). *)
Definition regexp (actual expected : value) : exec (bool * option error) :=
  match expected with
  | VString streg =>
      match actual with
      | VString astring =>
          match regexp_Compile streg with
          | None => Done (false, Some ErrInvalidPattern)
          | Some reg => Done (Regexp_MatchString reg astring, None)
          end
      | _ => Done (false, Some ErrActualNotText)
      end
  | _ => Done (false, Some ErrExpectedNotText)
  end.

(** [compare] (ruler.go:118-171), a switch on the comparator token. *)
Definition compare (f : Rule) (actual : value) : exec (bool * option error) :=
  let expected := Value f in
  let c := Comparator f in
  if (c =? "eq")%string then
    do b <- iface_eq actual expected; Done (b, None)
  else if (c =? "neq")%string then
    do b <- iface_eq actual expected; Done (negb b, None)
  else if (c =? "gt")%string then inequality Op.gt actual expected
  else if (c =? "gte")%string then inequality Op.gte actual expected
  else if (c =? "lt")%string then inequality Op.lt actual expected
  else if (c =? "lte")%string then inequality Op.lte actual expected
  else if (c =? "exists")%string then
    if negb (is_nil actual) then Done (true, None) else Done (false, None)
  else if (c =? "nexists")%string then
    if is_nil actual then Done (true, None) else Done (false, None)
  else if ((c =? "regex") || (c =? "contains") || (c =? "matches"))%string then
    regexp actual expected
  else if (c =? "ncontains")%string then
    do (result, err) <- regexp actual expected;
    match err with
    | Some _ => Done (false, err)
    | None => Done (negb result, err)
    end
  else Done (false, Some ErrUnknownComparator).

(** [t.Comparable()] on the result of [reflect.TypeOf]: a method call
    on the nil [reflect.Type] panics. *)
Definition Type_Comparable (t : option gotype) : exec bool :=
  match t with
  | Some t => Done (Comparable t)
  | None => Panic
  end.

(** [Test] (ruler.go:83-115).  What one iteration of its loop does: go
    on to the next rule, or return from [Test]. *)
Inductive control : Type :=
| Next
| Return (b : bool) (err : option error).

Definition Test_body (f : Rule) (o : document) : exec control :=
  let val := pluck o (Path f) in
  if negb (is_nil val) then
    let a := typeOf val in
    let e := typeOf (Value f) in
    do ca <- Type_Comparable a;
    if negb ca then Done (Return false None)
    else
      do ce <- Type_Comparable e;
      if negb ce then Done (Return false None)
      else
        do (result, err) <- compare f val;
        match err with
        | Some _ => Done (Return false err)
        | None => if negb result then Done (Return false None) else Done Next
        end
  else if is_nil val
          && ((Comparator f =? "exists") || (Comparator f =? "nexists"))%string then
    do (b, err) <- compare f val; Done (Return b err)
  else Done (Return false (Some (ErrMissingProperty (Path f)))).

Fixpoint Test_rules (rs : list Rule) (o : document) : exec (bool * option error) :=
  match rs with
  | [] => Done (true, None)
  | f :: rest =>
      do c <- Test_body f o;
      match c with
      | Next => Test_rules rest o
      | Return b err => Done (b, err)
      end
  end.

Definition Test (r : Ruler) (o : document) : exec (bool * option error) :=
  Test_rules (rules r) o.

End Engine.

(** ** The vocabulary of the specification *)

(** The four ordering comparators, their code and their meaning on
    integers and on floating point numbers. *)
Inductive ordering : Type := OGt | OGte | OLt | OLte.

Definition op_code (r : ordering) : Z :=
  match r with
  | OGt => Op.gt
  | OGte => Op.gte
  | OLt => Op.lt
  | OLte => Op.lte
  end.

Definition Z_rel (r : ordering) (x y : Z) : bool :=
  match r with
  | OGt => (x >? y)%Z
  | OGte => (x >=? y)%Z
  | OLt => (x <? y)%Z
  | OLte => (x <=? y)%Z
  end.

Definition float_rel (r : ordering) (x y : float) : bool :=
  match r with
  | OGt => float_gt x y
  | OGte => float_ge x y
  | OLt => float_lt x y
  | OLte => float_le x y
  end.

(** The key of [compare] for an ordering comparator. *)
Definition ordering_token (r : ordering) : string :=
  match r with
  | OGt => "gt"
  | OGte => "gte"
  | OLt => "lt"
  | OLte => "lte"
  end.

(** A value classifies as Unsupported when it has a type on which [==]
    is not defined: a nested mapping or a list.  The nil interface has
    no type and no kind. *)
Definition Unsupported (v : value) : Prop :=
  exists t, typeOf v = Some t /\ Comparable t = false.

(** The verdict on a rule whose path resolves to absent. *)
Definition absent_verdict (f : Rule) : bool * option error :=
  if decide (Comparator f = "exists") then (false, None)
  else if decide (Comparator f = "nexists") then (true, None)
  else (false, Some (ErrMissingProperty (Path f))).

(** Identical classified kind and identical value. *)
Definition identical (actual expected : value) : Prop :=
  typeOf actual = typeOf expected /\ actual = expected.

(** Equality of two values of one kind as [==] decides it: identity of
    the value, except on floating point numbers, where it is the IEEE
    754 equality. *)
Definition equal_value (actual expected : value) : Prop :=
  match actual, expected with
  | VFloat wa x, VFloat we y => wa = we /\ PrimFloat.eqb x y = true
  | _, _ => actual = expected
  end.

(** ** An instance of [GoLib] to run the engine on

    A small instance, enough to evaluate the engine on concrete rules.
    [decimal_ParseFloat] reads a non-empty string of decimal digits, as
    [strconv.ParseFloat] does on such a string (exactly, while the
    number stays below 2^53), and nothing else.  [literal_Compile]
    covers the patterns made of letters, digits and spaces, which the
    regular expression syntax of Go reads as literals, searched for
    anywhere in the subject; it compiles no other pattern. *)
Definition digit_float (c : ascii) : option float :=
  match c with
  | "0"%char => Some 0%float
  | "1"%char => Some 1%float
  | "2"%char => Some 2%float
  | "3"%char => Some 3%float
  | "4"%char => Some 4%float
  | "5"%char => Some 5%float
  | "6"%char => Some 6%float
  | "7"%char => Some 7%float
  | "8"%char => Some 8%float
  | "9"%char => Some 9%float
  | _ => None
  end.

Fixpoint decimal_digits (s : string) (acc : float) : option float :=
  match s with
  | EmptyString => Some acc
  | String c s' =>
      match digit_float c with
      | Some d => decimal_digits s' (acc * 10 + d)%float
      | None => None
      end
  end.

Definition decimal_ParseFloat (s : string) : option float :=
  match s with
  | EmptyString => None
  | _ => decimal_digits s 0%float
  end.

Definition is_literal_char (c : ascii) : bool :=
  let n := nat_of_ascii c in
  ((48 <=? n) && (n <=? 57) || (65 <=? n) && (n <=? 90)
   || (97 <=? n) && (n <=? 122) || (n =? 32))%nat.

Fixpoint all_literal (s : string) : bool :=
  match s with
  | EmptyString => true
  | String c s' => is_literal_char c && all_literal s'
  end.

Definition literal_Compile (p : string) : option string :=
  if all_literal p then Some p else None.

Fixpoint literal_MatchString (p s : string) : bool :=
  String.prefix p s
  || match s with
     | EmptyString => false
     | String _ s' => literal_MatchString p s'
     end.

Definition literal_lib : GoLib := {|
  strconv_ParseFloat := decimal_ParseFloat;
  Regexp := string;
  regexp_Compile := literal_Compile;
  Regexp_MatchString := literal_MatchString
|}.

(** Documents and rules used in the examples. *)
Definition doc_abc : document :=
  {[ "a" := VMap {[ "b" := VMap {[ "c" := VInt IWord 5 ]} ]} ]}.

Definition doc_a1 : document := {[ "a" := VInt IWord 1 ]}.

Definition doc_null : document :=
  {[ "a" := VMap {[ "b" := VNil ]} ]}.

Definition doc_mixed : document :=
  {[ "a" := VInt IWord 1; "m" := VMap {[ "k" := VBool true ]} ]}.

Definition rule (c p : string) (v : value) : Rule :=
  {| Comparator := c; Path := p; Value := v |}.

(** ** The constructors of [Ruler] (ruler.go:36-78) *)

(** [NewRuler(rules)]: [None] is the nil slice, on which the ruler is
    built with no rules. *)
Definition NewRuler (rs : option (list Rule)) : Ruler :=
  match rs with
  | Some l => {| rules := l |}
  | None => {| rules := [] |}
  end.


(** ** More vocabulary *)

(** The byte [sep] occurs in [s]. *)
Fixpoint has_sep (s : string) (sep : ascii) : bool :=
  match s with
  | EmptyString => false
  | String c s' => Ascii.eqb c sep || has_sep s' sep
  end.

Definition has_dot (s : string) : bool := has_sep s "."%char.

(** The first segment of a path. *)
Definition first_segment (path : string) : string :=
  part (strings_Split path "."%char) 0.

(** The tokens [compare] has a case for. *)
Definition known_tokens : list string :=
  ["eq"; "neq"; "gt"; "gte"; "lt"; "lte"; "exists"; "nexists";
   "regex"; "contains"; "matches"; "ncontains"]%string.

(** The tokens that go to the pattern matcher. *)
Definition pattern_tokens : list string :=
  ["regex"; "contains"; "matches"; "ncontains"]%string.

(** A present value on which [==] is defined. *)
Definition comparable_value (v : value) : Prop :=
  exists t, typeOf v = Some t /\ Comparable t = true.

(** A document as a JSON decoder yields it: numbers are float64. *)
Definition doc_person : document :=
  {[ "name" := VString "Alice"; "age" := VFloat F64 9 ]}.

(** * Properties *)

(** ** [strings.Split] and [pluck] *)

Lemma strings_Split_nonempty (s : string) (sep : ascii) :
  strings_Split s sep <> [].
Proof.
  induction s as [|c s IH]; simpl; [discriminate|].
  destruct (Ascii.eqb c sep); [discriminate|].
  destruct (strings_Split s sep); discriminate.
Qed.

Example Split_abc : strings_Split "a.b.c" "."%char = ["a"; "b"; "c"]%string.
Proof. reflexivity. Qed.

Example Split_empty : strings_Split "" "."%char = [""]%string.
Proof. reflexivity. Qed.

Example Split_trailing :
  strings_Split "a..b." "."%char = ["a"; ""; "b"; ""]%string.
Proof. reflexivity. Qed.

Lemma resolve_segments_step (node : document) (seg : string) (more : list string) :
  more <> [] ->
  resolve_segments node seg more =
  match node !! seg with
  | Some (VMap child) => resolve_list child more
  | _ => None
  end.
Proof. destruct more as [|seg' more']; [congruence|reflexivity]. Qed.

Lemma part_app_middle (pre rest : list string) (c : string) :
  part (pre ++ c :: rest) (length pre) = c.
Proof.
  unfold part. rewrite lookup_app_r by lia.
  replace (length pre - length pre) with 0 by lia. reflexivity.
Qed.

Lemma index_not_nil_default (m : document) (k : string) :
  (if negb (is_nil (index m k)) then index m k else VNil) = default VNil (m !! k).
Proof. unfold index. destruct (m !! k) as [[]|]; reflexivity. Qed.

(** The loop of [pluck] followed by the final lookup walks the middle
    segments and the last one as [resolve_list] does. *)
Lemma pluck_loop_resolve (mid : list string) :
  forall (pre : list string) (last : string) (prev : document),
    pluck_finish
      (pluck_loop (pre ++ mid ++ [last]) (length pre) (length mid) prev) last
    = default VNil (resolve_list prev (mid ++ [last])).
Proof.
  induction mid as [|c mid IH]; intros pre last prev.
  - simpl. apply index_not_nil_default.
  - cbn [length pluck_loop]. rewrite <- app_comm_cons, part_app_middle.
    cbn [resolve_list].
    rewrite resolve_segments_step by (destruct mid; discriminate).
    unfold index at 1 2.
    destruct (prev !! c) as [v|] eqn:Hc; [|reflexivity].
    destruct v; try reflexivity. cbn [default is_nil].
    specialize (IH (pre ++ [c]) last m).
    rewrite <- app_assoc, length_app in IH. cbn [app length] in IH.
    replace (length pre + 1) with (S (length pre)) in IH by lia.
    exact IH.
Qed.

(** [pluck] on a path whose segments are [seg :: more]. *)
Lemma pluck_segments (o : document) (path seg : string) (more : list string) :
  strings_Split path "."%char = seg :: more ->
  pluck o path = default VNil (resolve_segments o seg more).
Proof.
  intros Hsplit. unfold pluck. rewrite Hsplit.
  change (part (seg :: more) 0) with seg.
  destruct more as [|s1 more1] using rev_ind.
  - cbn [length Nat.eqb Nat.ltb Nat.leb andb resolve_segments].
    apply index_not_nil_default.
  - clear IHmore1. rename more1 into mid, s1 into last.
    assert (Hlen : length (seg :: mid ++ [last]) = S (S (length mid))).
    { cbn [length]. rewrite length_app. cbn [length]. lia. }
    rewrite Hlen. cbn [Nat.eqb Nat.ltb Nat.leb andb].
    replace (S (S (length mid)) - 2) with (length mid) by lia.
    replace (S (S (length mid)) - 1) with (length ([seg] ++ mid)) 
      by (rewrite length_app; cbn [length]; lia).
    change (seg :: mid ++ [last]) with ([seg] ++ mid ++ [last]).
    rewrite (app_assoc [seg] mid [last]), part_app_middle.
    rewrite <- (app_assoc [seg] mid [last]).
    rewrite resolve_segments_step by (destruct mid; discriminate).
    unfold index at 1 2 3.
    destruct (o !! seg) as [v|] eqn:Ho; [|reflexivity].
    destruct v; try reflexivity. cbn [default is_nil negb].
    apply (pluck_loop_resolve mid [seg] last m).
Qed.

(** C9. Path resolution splits the path on ['.'] and walks the segments
    in order: below every segment but the last the current node has to
    be a nested mapping holding the key, else the result is absent; the
    value under the last segment comes back as stored, whatever its
    kind, and absent when the key is missing.  [pluck] is a function of
    the document and the path alone and returns only the value: no
    operation of it writes to a map. *)
Theorem pluck_resolves (o : document) (path : string) :
  pluck o path = default VNil (resolve o path).
Proof.
  unfold resolve.
  destruct (strings_Split path "."%char) as [|seg more] eqn:Hsplit.
  - exfalso. exact (strings_Split_nonempty _ _ Hsplit).
  - apply (pluck_segments o path seg more Hsplit).
Qed.

Example pluck_leaf : pluck doc_abc "a.b.c" = VInt IWord 5.
Proof. reflexivity. Qed.

Example pluck_nested_mapping :
  pluck doc_abc "a.b" = VMap {[ "c" := VInt IWord 5 ]}.
Proof. reflexivity. Qed.

Example pluck_through_scalar : pluck doc_abc "a.b.c.d" = VNil.
Proof. reflexivity. Qed.

Example pluck_missing_key : pluck doc_abc "a.x.c" = VNil.
Proof. reflexivity. Qed.

Example pluck_list_leaf :
  pluck {[ "l" := VSlice [VBool true] ]} "l" = VSlice [VBool true].
Proof. reflexivity. Qed.

(** A nil met on the way, at the last segment or before, resolves to
    absent. *)
Lemma resolve_segments_nil_along (segs : list string) :
  forall (m : document),
    nil_along m segs -> default VNil (resolve_list m segs) = VNil.
Proof.
  intros m H. induction H as [m seg more Hnil | m child seg more Hmap Hchild IH].
  - cbn [resolve_list]. destruct more as [|seg' more'].
    + cbn [resolve_segments]. rewrite Hnil. reflexivity.
    + cbn [resolve_segments]. rewrite Hnil. reflexivity.
  - cbn [resolve_list]. destruct more as [|seg' more'].
    + inversion Hchild.
    + cbn [resolve_segments]. rewrite Hmap. exact IH.
Qed.

Lemma pluck_nil_along (o : document) (path : string) :
  nil_along o (strings_Split path "."%char) -> pluck o path = VNil.
Proof.
  intros H.
  destruct (strings_Split path "."%char) as [|seg more] eqn:Hsplit; [inversion H|].
  rewrite (pluck_segments o path seg more Hsplit).
  apply (resolve_segments_nil_along _ o H).
Qed.

Lemma pluck_absent (o : document) (path : string) :
  resolve o path = None -> pluck o path = VNil.
Proof.
  unfold resolve. intros H.
  destruct (strings_Split path "."%char) as [|seg more] eqn:Hsplit.
  - exfalso. exact (strings_Split_nonempty _ _ Hsplit).
  - rewrite (pluck_segments o path seg more Hsplit), H. reflexivity.
Qed.

(** ** The comparisons and the dispatcher *)

Section EngineProperties.
Context {lib : GoLib}.

(** *** Ordering comparisons *)

Lemma op_code_cases (r : ordering) (A : Type) (g ge l le d : A) :
  (if (op_code r =? Op.gt)%Z then g
   else if (op_code r =? Op.gte)%Z then ge
   else if (op_code r =? Op.lt)%Z then l
   else if (op_code r =? Op.lte)%Z then le
   else d)
  = match r with OGt => g | OGte => ge | OLt => l | OLte => le end.
Proof. destruct r; reflexivity. Qed.

(** On the two 64-bit integer types the comparison is the one asked
    for, on the numbers themselves. *)
Lemma inequality_uint64 (r : ordering) (a e : Z) :
  inequality (op_code r) (VUint U64 a) (VUint U64 e) = Done (Z_rel r a e, None).
Proof.
  unfold inequality. cbn. rewrite op_code_cases. destruct r; reflexivity.
Qed.

Lemma inequality_int64 (r : ordering) (a e : Z) :
  inequality (op_code r) (VInt I64 a) (VInt I64 e) = Done (Z_rel r a e, None).
Proof.
  unfold inequality. cbn. rewrite op_code_cases. destruct r; reflexivity.
Qed.

(** On every narrower integer type, and on [uint] and [int], the type
    assertion to the 64-bit type panics. *)
Lemma inequality_uint_narrow (op : Z) (w : uwidth) (a e : Z) :
  w <> U64 -> inequality op (VUint w a) (VUint w e) = Panic.
Proof. intros Hw. destruct w; try congruence; reflexivity. Qed.

Lemma inequality_int_narrow (op : Z) (w : iwidth) (a e : Z) :
  w <> I64 -> inequality op (VInt w a) (VInt w e) = Panic.
Proof. intros Hw. destruct w; try congruence; reflexivity. Qed.

(** C1. An ordering comparison between two integers of one kind is to
    widen both to 64 bits and return their ordering, without error.
    The source does so on uint64 and int64 only ([inequality_uint64],
    [inequality_int64]).  Here two [int32] operands reach [compareInt],
    whose assertion [actual.(int64)] panics, so that no comparison is
    made and nothing is returned; likewise for the rule [gt 0] on a
    document holding the [int] 1. *)
Theorem inequality_int32_panics :
  inequality Op.gt (VInt I32 5) (VInt I32 3) = Panic
  /\ Test {| rules := [rule "gt" "a" (VInt IWord 0)] |} doc_a1 = Panic.
Proof. split; reflexivity. Qed.

(** C5. An ordering comparison between operands of two different
    concrete types, two integer types of different width or signedness
    included, fails with the TypeMismatch error; neither operand is
    converted.  This holds for [inequality] under every operator code
    and for [compare] under each of gt, gte, lt and lte. *)
Theorem inequality_type_mismatch (op : Z) (actual expected : value) :
  typeOf actual <> typeOf expected ->
  inequality op actual expected = Done (false, Some ErrTypeMismatch)
  /\ forall (r : ordering) (p : string),
      compare (rule (ordering_token r) p expected) actual
      = Done (false, Some ErrTypeMismatch).
Proof.
  intros Hne.
  assert (Hin : forall op', inequality op' actual expected
                            = Done (false, Some ErrTypeMismatch)).
  { intros op'. unfold inequality. destruct (decide _) as [_|Heq]; [reflexivity|].
    exfalso. apply Heq, Hne. }
  split; [apply Hin|].
  intros r p. destruct r; unfold compare; cbn; apply Hin.
Qed.

(** C6. An ordering comparison between two texts parses both as
    floating point numbers; when either does not parse the result is
    false and there is no error; when both parse the result is the
    ordering of the two numbers. *)
Theorem inequality_text (r : ordering) (a e : string) :
  inequality (op_code r) (VString a) (VString e)
  = Done (match strconv_ParseFloat a, strconv_ParseFloat e with
          | Some x, Some y => float_rel r x y
          | _, _ => false
          end, None).
Proof.
  unfold inequality. cbn.
  destruct (strconv_ParseFloat a) as [x|]; [|reflexivity].
  destruct (strconv_ParseFloat e) as [y|]; [|reflexivity].
  cbn. rewrite op_code_cases. destruct r; reflexivity.
Qed.

(** *** The pattern matcher *)

Lemma regexp_error_false (actual expected : value) (b : bool) (err : error) :
  regexp actual expected = Done (b, Some err) -> b = false.
Proof.
  unfold regexp. intros H.
  destruct expected; try (injection H as <- _; reflexivity).
  destruct actual; try (injection H as <- _; reflexivity).
  destruct (regexp_Compile s); [discriminate|].
  injection H as <- _; reflexivity.
Qed.

Lemma regexp_returns (actual expected : value) :
  exists b err, regexp actual expected = Done (b, err).
Proof.
  unfold regexp. destruct expected; eauto. destruct actual; eauto.
  destruct (regexp_Compile s); eauto.
Qed.

(** C7. Under ncontains the dispatcher returns the negation of what
    the pattern matcher found, and hands on any error of the pattern
    matcher as it is; a malformed pattern gives the InvalidPattern
    error and no negated boolean.  The pattern matcher always returns
    one or the other. *)
Theorem compare_ncontains (f : Rule) (actual : value) :
  Comparator f = "ncontains" ->
  (forall b, regexp actual (Value f) = Done (b, None) ->
             compare f actual = Done (negb b, None))
  /\ (forall b err, regexp actual (Value f) = Done (b, Some err) ->
                    compare f actual = Done (b, Some err))
  /\ (forall p s, Value f = VString p -> actual = VString s ->
                  regexp_Compile p = None ->
                  compare f actual = Done (false, Some ErrInvalidPattern))
  /\ (exists b err, regexp actual (Value f) = Done (b, err)).
Proof.
  intros Hc.
  assert (Hcmp : compare f actual =
                 do (result, err) <- regexp actual (Value f);
                 match err with
                 | Some _ => Done (false, err)
                 | None => Done (negb result, err)
                 end).
  { unfold compare. rewrite Hc. reflexivity. }
  split; [|split; [|split]].
  - intros b Hb. rewrite Hcmp, Hb. reflexivity.
  - intros b err Hb. rewrite Hcmp, Hb. cbn.
    rewrite (regexp_error_false _ _ _ _ Hb). reflexivity.
  - intros p s Hp Hs Hbad. rewrite Hcmp, Hp, Hs. cbn. rewrite Hbad. reflexivity.
  - apply regexp_returns.
Qed.

(** The three aliases of the pattern matcher. *)
Lemma compare_pattern (f : Rule) (actual : value) :
  Comparator f = "regex" \/ Comparator f = "contains" \/ Comparator f = "matches" ->
  compare f actual = regexp actual (Value f).
Proof.
  intros [H|[H|H]]; unfold compare; rewrite H; reflexivity.
Qed.

(** *** Equality *)

Lemma compare_eq (f : Rule) (actual : value) :
  Comparator f = "eq" ->
  compare f actual = do b <- iface_eq actual (Value f); Done (b, None).
Proof. intros H. unfold compare. rewrite H. reflexivity. Qed.

Lemma compare_neq (f : Rule) (actual : value) :
  Comparator f = "neq" ->
  compare f actual = do b <- iface_eq actual (Value f); Done (negb b, None).
Proof. intros H. unfold compare. rewrite H. reflexivity. Qed.

(** [==] on a comparable actual value returns, and says true exactly
    on two values of one kind that are equal. *)
Lemma iface_eq_equal_value (actual expected : value) (t : gotype) :
  typeOf actual = Some t -> Comparable t = true ->
  exists b, iface_eq actual expected = Done b
            /\ (b = true <-> typeOf actual = typeOf expected
                             /\ equal_value actual expected).
Proof.
  intros Ht Hcmp.
  destruct actual as [|a|wa a|wa a|wa a|a|a|a]; cbn in Ht;
    try discriminate; try (injection Ht as <-; discriminate Hcmp);
    destruct expected as [|e|we e|we e|we e|e|e|e]; cbn [iface_eq];
    eexists; (split; [reflexivity|]); cbn [typeOf equal_value];
    try (split; [discriminate | intros [? ?]; congruence]).
  - rewrite Bool.eqb_true_iff. split; [intros ->; auto | intros [_ ?]; congruence].
  - rewrite andb_true_iff, bool_decide_eq_true, Z.eqb_eq.
    split; [intros [-> ->]; auto | intros [_ ?]; split; congruence].
  - rewrite andb_true_iff, bool_decide_eq_true, Z.eqb_eq.
    split; [intros [-> ->]; auto | intros [_ ?]; split; congruence].
  - rewrite andb_true_iff, bool_decide_eq_true.
    split; [intros [-> ?]; auto | intros [_ [? ?]]; auto].
  - rewrite String.eqb_eq. split; [intros ->; auto | intros [_ ?]; congruence].
Qed.

(** C8, as the source has it.  For a rule with comparator eq (resp.
    neq) and a present actual value of a comparable kind, the result
    is true (resp. false) exactly when actual and expected have the
    same classified kind and are equal as [==] decides it on that
    kind: identity of the value for booleans, integers and text, IEEE
    equality for floating point numbers.  There is no error, and two
    values of different kinds are never equal. *)
Theorem compare_eq_neq (f : Rule) (actual : value) (t : gotype) :
  typeOf actual = Some t -> Comparable t = true ->
  exists b,
    (b = true <-> typeOf actual = typeOf (Value f)
                  /\ equal_value actual (Value f))
    /\ (Comparator f = "eq" -> compare f actual = Done (b, None))
    /\ (Comparator f = "neq" -> compare f actual = Done (negb b, None)).
Proof.
  intros Ht Hcmp.
  destruct (iface_eq_equal_value actual (Value f) t Ht Hcmp) as (b & Hb & Hiff).
  exists b. split; [exact Hiff|]. split; intros Hc.
  - rewrite (compare_eq _ _ Hc), Hb. reflexivity.
  - rewrite (compare_neq _ _ Hc), Hb. reflexivity.
Qed.

(** Outside floating point, equal as [==] decides it is identical. *)
Lemma equal_value_identical (actual expected : value) :
  (forall w x, actual <> VFloat w x) ->
  (typeOf actual = typeOf expected /\ equal_value actual expected)
  <-> identical actual expected.
Proof.
  intros Hnf. unfold identical.
  destruct actual; try (cbn; tauto). exfalso. eapply Hnf. reflexivity.
Qed.

Example eq_int_5_text_5 :
  compare (rule "eq" "a.b.c" (VString "5")) (VInt IWord 5) = Done (false, None)
  /\ compare (rule "neq" "a.b.c" (VString "5")) (VInt IWord 5) = Done (true, None).
Proof. split; reflexivity. Qed.

Example eq_int_5_float_5 :
  compare (rule "eq" "a.b.c" (VFloat F64 5)) (VInt IWord 5) = Done (false, None).
Proof. reflexivity. Qed.

(** *** The loop of [Test] *)

Lemma Test_rules_skip (pre rest : list Rule) (o : document) :
  Forall (fun g => Test_body g o = Done Next) pre ->
  Test_rules (pre ++ rest) o = Test_rules rest o.
Proof.
  induction 1 as [|g pre Hg _ IH]; [reflexivity|].
  cbn [app Test_rules]. rewrite Hg. exact IH.
Qed.

Lemma Test_rules_return (f : Rule) (rest : list Rule) (o : document)
      (b : bool) (err : option error) :
  Test_body f o = Done (Return b err) ->
  Test_rules (f :: rest) o = Done (b, err).
Proof. intros H. cbn [Test_rules]. rewrite H. reflexivity. Qed.

Lemma Test_empty (o : document) : Test {| rules := [] |} o = Done (true, None).
Proof. reflexivity. Qed.

Lemma Test_all_pass (rs : list Rule) (o : document) :
  Forall (fun g => Test_body g o = Done Next) rs ->
  Test {| rules := rs |} o = Done (true, None).
Proof.
  intros H. unfold Test. cbn [rules].
  rewrite <- (app_nil_r rs), (Test_rules_skip rs [] o H). reflexivity.
Qed.

(** A rule on an absent path ends the evaluation with its verdict. *)
Lemma Test_body_absent (f : Rule) (o : document) :
  pluck o (Path f) = VNil ->
  Test_body f o = Done (Return (absent_verdict f).1 (absent_verdict f).2).
Proof.
  intros Habs. unfold Test_body, absent_verdict. rewrite Habs.
  cbn [is_nil negb andb].
  destruct (decide (Comparator f = "exists")) as [E|NE].
  - unfold compare. rewrite E. reflexivity.
  - apply String.eqb_neq in NE. rewrite NE. cbn [orb].
    destruct (decide (Comparator f = "nexists")) as [E'|NE'].
    + unfold compare. rewrite E'. reflexivity.
    + apply String.eqb_neq in NE'. rewrite NE'. reflexivity.
Qed.

Lemma Test_rules_absent (pre rest : list Rule) (f : Rule) (o : document) :
  Forall (fun g => Test_body g o = Done Next) pre ->
  pluck o (Path f) = VNil ->
  Test_rules (pre ++ f :: rest) o = Done (absent_verdict f).
Proof.
  intros Hpre Habs. rewrite (Test_rules_skip _ _ _ Hpre).
  rewrite (Test_rules_return f rest o _ _ (Test_body_absent f o Habs)).
  destruct (absent_verdict f); reflexivity.
Qed.

Lemma Test_rules_absent_head (rest : list Rule) (f : Rule) (o : document) :
  pluck o (Path f) = VNil ->
  Test_rules (f :: rest) o = Done (absent_verdict f).
Proof. intros Habs. exact (Test_rules_absent [] rest f o (List.Forall_nil _) Habs). Qed.

(** C4. When the path of the rule under evaluation resolves to absent,
    the verdict is false under exists, true under nexists, and under
    any other comparator the MissingProperty error, whose message
    carries the path. *)
Theorem Test_absent (pre rest : list Rule) (f : Rule) (o : document) :
  Forall (fun g => Test_body g o = Done Next) pre ->
  pluck o (Path f) = VNil ->
  Test {| rules := pre ++ f :: rest |} o
  = Done (if decide (Comparator f = "exists") then (false, None)
          else if decide (Comparator f = "nexists") then (true, None)
          else (false, Some ("did not find property (" +:+ Path f +:+ ") on map"))).
Proof.
  intros Hpre Habs. unfold Test. cbn [rules].
  rewrite (Test_rules_skip pre (f :: rest) o Hpre).
  rewrite (Test_rules_return f rest o _ _ (Test_body_absent f o Habs)).
  unfold absent_verdict, ErrMissingProperty.
  destruct (decide (Comparator f = "exists")); [reflexivity|].
  destruct (decide (Comparator f = "nexists")); reflexivity.
Qed.

(** C10. When the walk along the path meets a stored nil, under the
    last key or under one before it, the path resolves to absent and
    the rule is decided as on a document where the path is missing:
    false under exists, true under nexists, MissingProperty under any
    other comparator. *)
Theorem Test_nil_along (rest : list Rule) (f : Rule) (o : document) :
  nil_along o (strings_Split (Path f) "."%char) ->
  pluck o (Path f) = VNil
  /\ Test {| rules := f :: rest |} o = Done (absent_verdict f)
  /\ forall o' : document,
       resolve o' (Path f) = None ->
       Test {| rules := f :: rest |} o = Test {| rules := f :: rest |} o'.
Proof.
  intros Hnil. pose proof (pluck_nil_along o (Path f) Hnil) as Habs.
  split; [exact Habs|]. split.
  - exact (Test_rules_absent_head rest f o Habs).
  - intros o' Hmiss.
    assert (Habs' : pluck o' (Path f) = VNil).
    { exact (pluck_absent o' (Path f) Hmiss). }
    unfold Test. cbn [rules].
    rewrite (Test_rules_absent_head rest f o Habs).
    rewrite (Test_rules_absent_head rest f o' Habs').
    reflexivity.
Qed.

(** C3. When the path of the rule under evaluation resolves to a
    present value and that value or the expected value of the rule is
    of an Unsupported kind, the evaluation of the rule set ends there
    with false and no error, whatever the comparator and whatever
    rules follow. *)
Theorem Test_unsupported_aborts (pre rest : list Rule) (f : Rule) (o : document) :
  Forall (fun g => Test_body g o = Done Next) pre ->
  pluck o (Path f) <> VNil ->
  Unsupported (pluck o (Path f)) \/ Unsupported (Value f) ->
  Test {| rules := pre ++ f :: rest |} o = Done (false, None).
Proof.
  intros Hpre Hpresent Hunsup. unfold Test. cbn [rules].
  rewrite (Test_rules_skip _ _ _ Hpre).
  apply Test_rules_return. unfold Test_body.
  destruct (pluck o (Path f)) as [|a|wa a|wa a|wa a|a|a|a] eqn:Hval;
    [congruence| | | | | | |]; cbn [is_nil negb typeOf Type_Comparable bind Comparable];
    try reflexivity;
    (destruct Hunsup as [(t & Ht & Hc)|(t & Ht & Hc)];
     [cbn in Ht; injection Ht as <-; discriminate Hc
     |rewrite Ht; cbn [Type_Comparable bind]; rewrite Hc; reflexivity]).
Qed.

(** C2. [Test] is to be the conjunction of its rules, true exactly when
    every rule is true.  Here the first rule, nexists on a missing
    path, makes [Test] return true at once; the second rule, which is
    false on this document, is never looked at. *)
Theorem Test_nexists_returns_early :
  Test {| rules := [rule "nexists" "x" (VBool true);
                    rule "eq" "a" (VInt IWord 2)] |} doc_a1
  = Done (true, None)
  /\ Test {| rules := [rule "eq" "a" (VInt IWord 2)] |} doc_a1
     = Done (false, None).
Proof. split; reflexivity. Qed.

(** The early return, whatever follows the rule. *)
Lemma Test_nexists_absent (rest : list Rule) (f : Rule) (o : document) :
  Comparator f = "nexists" -> pluck o (Path f) = VNil ->
  Test {| rules := f :: rest |} o = Done (true, None).
Proof.
  intros Hc Habs. unfold Test. cbn [rules].
  rewrite (Test_rules_absent_head rest f o Habs).
  unfold absent_verdict. rewrite Hc. reflexivity.
Qed.

(** The part of the conjunction that the loop does implement: a rule
    that is false, reached after rules that let the loop go on, ends
    the evaluation with false. *)
Lemma Test_first_false (pre rest : list Rule) (f : Rule) (o : document) :
  Forall (fun g => Test_body g o = Done Next) pre ->
  Test_body f o = Done (Return false None) ->
  Test {| rules := pre ++ f :: rest |} o = Done (false, None).
Proof.
  intros Hpre Hf. unfold Test. cbn [rules].
  rewrite (Test_rules_skip _ _ _ Hpre). apply Test_rules_return, Hf.
Qed.

End EngineProperties.


(** ** The engine run on [literal_lib] *)

Example numeric_string_ordering :
  Test (lib := literal_lib) {| rules := [rule "gt" "p" (VString "10")] |}
       {[ "p" := VString "9" ]} = Done (false, None)
  /\ Test (lib := literal_lib) {| rules := [rule "lt" "p" (VString "10")] |}
          {[ "p" := VString "9" ]} = Done (true, None).
Proof. split; reflexivity. Qed.

Example strict_equality :
  Test (lib := literal_lib) {| rules := [rule "eq" "a.b.c" (VInt IWord 5)] |} doc_abc
  = Done (true, None)
  /\ Test (lib := literal_lib) {| rules := [rule "eq" "a.b.c" (VString "5")] |} doc_abc
     = Done (false, None).
Proof. split; reflexivity. Qed.

Example nil_expected_panics :
  Test (lib := literal_lib) {| rules := [rule "eq" "a" VNil] |} doc_a1 = Panic.
Proof. reflexivity. Qed.

Lemma Test_unsupported_aborts_witness :
  let pre := [rule "exists" "a" (VBool true)] in
  let f := rule "eq" "m" (VInt IWord 1) in
  let rest := [rule "eq" "a" (VInt IWord 1)] in
  Forall (fun g => Test_body (lib := literal_lib) g doc_mixed = Done Next) pre
  /\ pluck doc_mixed (Path f) <> VNil
  /\ Unsupported (pluck doc_mixed (Path f))
  /\ Test (lib := literal_lib) {| rules := pre ++ f :: rest |} doc_mixed
     = Done (false, None).
Proof.
  intros pre f rest.
  assert (Hpre : Forall (fun g => Test_body (lib := literal_lib) g doc_mixed
                                  = Done Next) pre).
  { apply List.Forall_cons; [reflexivity | apply List.Forall_nil]. }
  assert (Hpresent : pluck doc_mixed (Path f) <> VNil).
  { vm_compute. discriminate. }
  assert (Hunsup : Unsupported (pluck doc_mixed (Path f))).
  { exists TMap. split; reflexivity. }
  split; [exact Hpre|]. split; [exact Hpresent|]. split; [exact Hunsup|].
  apply (Test_unsupported_aborts pre rest f doc_mixed Hpre Hpresent).
  left. exact Hunsup.
Defined.

Lemma Test_absent_witness :
  let f := rule "eq" "x" (VInt IWord 1) in
  pluck doc_a1 (Path f) = VNil
  /\ Test (lib := literal_lib) {| rules := [] ++ f :: [] |} doc_a1
     = Done (false, Some "did not find property (x) on map").
Proof.
  intros f. split; [reflexivity|].
  apply (Test_absent (lib := literal_lib) [] [] f doc_a1).
  - apply List.Forall_nil.
  - reflexivity.
Defined.

Lemma inequality_type_mismatch_witness :
  typeOf (VInt I32 7) <> typeOf (VInt I64 3)
  /\ inequality (lib := literal_lib) Op.gt (VInt I32 7) (VInt I64 3)
     = Done (false, Some ErrTypeMismatch).
Proof.
  assert (H : typeOf (VInt I32 7) <> typeOf (VInt I64 3)) by (cbn; discriminate).
  split; [exact H|].
  apply (inequality_type_mismatch (lib := literal_lib) Op.gt _ _ H).
Defined.

Lemma compare_ncontains_witness :
  let bad := rule "ncontains" "name" (VString "(") in
  let good := rule "ncontains" "name" (VString "li") in
  compare (lib := literal_lib) bad (VString "Alice")
  = Done (false, Some ErrInvalidPattern)
  /\ compare (lib := literal_lib) good (VString "Alice") = Done (false, None)
  /\ compare (lib := literal_lib) good (VString "bob") = Done (true, None).
Proof.
  intros bad good. split; [|split].
  - apply (compare_ncontains (lib := literal_lib) bad (VString "Alice") eq_refl)
      with (p := "("%string) (s := "Alice"%string); reflexivity.
  - apply (compare_ncontains (lib := literal_lib) good (VString "Alice") eq_refl)
      with (b := true). reflexivity.
  - apply (compare_ncontains (lib := literal_lib) good (VString "bob") eq_refl)
      with (b := false). reflexivity.
Defined.

Lemma compare_eq_neq_witness :
  exists b : bool,
    (b = true <-> typeOf (VInt IWord 5) = typeOf (VInt IWord 5)
                  /\ equal_value (VInt IWord 5) (VInt IWord 5))
    /\ compare (lib := literal_lib) (rule "eq" "a.b.c" (VInt IWord 5)) (VInt IWord 5)
       = Done (b, None).
Proof.
  destruct (compare_eq_neq (lib := literal_lib)
              (rule "eq" "a.b.c" (VInt IWord 5)) (VInt IWord 5) (TInt IWord)
              eq_refl eq_refl) as (b & Hiff & Heq & _).
  exists b. split; [exact Hiff | exact (Heq eq_refl)].
Defined.

(** C8 as it is worded fails on a NaN: actual and expected are the same
    float64 NaN, of identical kind and identical value, and eq answers
    false. *)
Lemma eq_nan_not_identical :
  ~ (compare (lib := literal_lib) (rule "eq" "p" (VFloat F64 nan)) (VFloat F64 nan)
     = Done (true, None)
     <-> identical (VFloat F64 nan) (VFloat F64 nan)).
Proof.
  intros [_ H]. specialize (H (conj eq_refl eq_refl)).
  vm_compute in H. discriminate H.
Qed.

(** In the other direction, eq answers true on the two zeros, which are
    different values. *)
Example eq_zero_neg_zero :
  compare (lib := literal_lib) (rule "eq" "p" (VFloat F64 neg_zero)) (VFloat F64 zero)
  = Done (true, None)
  /\ VFloat F64 zero <> VFloat F64 neg_zero.
Proof.
  split; [reflexivity|].
  intros H.
  apply (f_equal (fun v => match v with
                           | VFloat _ x => PrimFloat.ltb (1 / x) zero
                           | _ => false
                           end)) in H.
  vm_compute in H. discriminate H.
Qed.

Lemma Test_nil_along_witness :
  let f := rule "nexists" "a.b" (VBool true) in
  nil_along doc_null (strings_Split (Path f) "."%char)
  /\ pluck doc_null (Path f) = VNil
  /\ Test (lib := literal_lib) {| rules := [f; rule "eq" "a" (VInt IWord 2)] |} doc_null
     = Done (true, None).
Proof.
  intros f.
  assert (Hnil : nil_along doc_null (strings_Split (Path f) "."%char)).
  { apply (nil_below doc_null {[ "b" := VNil ]} "a" ["b"%string]); [reflexivity|].
    apply nil_here. reflexivity. }
  split; [exact Hnil|].
  destruct (Test_nil_along (lib := literal_lib) [rule "eq" "a" (VInt IWord 2)]
              f doc_null Hnil) as (Hp & Ht & _).
  split; [exact Hp | exact Ht].
Defined.


(** * Further properties of the source *)

(** ** [strings.Split] and the shape of paths *)

Lemma strings_Split_no_sep (s : string) (sep : ascii) :
  has_sep s sep = false -> strings_Split s sep = [s].
Proof.
  induction s as [|c s IH]; [reflexivity|].
  cbn [has_sep strings_Split]. intros H.
  apply orb_false_iff in H as [Hc Hs]. rewrite Hc, (IH Hs). reflexivity.
Qed.

Lemma strings_Split_app (k rest : string) (sep : ascii) :
  has_sep k sep = false ->
  strings_Split (k +:+ String sep rest) sep = k :: strings_Split rest sep.
Proof.
  induction k as [|c k IH]; simpl.
  - intros _. rewrite Ascii.eqb_refl. reflexivity.
  - intros H. apply orb_false_iff in H as [Hc Hk]. rewrite Hc, (IH Hk). reflexivity.
Qed.

Lemma strings_Split_segments (s : string) (sep : ascii) :
  Forall (fun p => has_sep p sep = false) (strings_Split s sep).
Proof.
  induction s as [|c s IH]; cbn [strings_Split].
  - apply List.Forall_cons; [reflexivity | apply List.Forall_nil].
  - destruct (Ascii.eqb c sep) eqn:Hc.
    + apply List.Forall_cons; [reflexivity | exact IH].
    + destruct (strings_Split s sep) as [|p ps].
      * apply List.Forall_cons; [|apply List.Forall_nil].
        cbn [has_sep]. rewrite Hc. reflexivity.
      * inversion IH as [|? ? Hp Hps]; subst.
        apply List.Forall_cons; [|exact Hps].
        cbn [has_sep]. rewrite Hc. exact Hp.
Qed.

Lemma first_segment_no_dot (path : string) :
  has_dot (first_segment path) = false.
Proof.
  unfold first_segment, has_dot.
  pose proof (strings_Split_segments path "."%char) as H.
  destruct (strings_Split path "."%char) as [|seg more]; [reflexivity|].
  inversion H; subst. assumption.
Qed.

Lemma has_sep_true_ne (k k' : string) (sep : ascii) :
  has_sep k sep = true -> has_sep k' sep = false -> k <> k'.
Proof. intros H1 H2 ->. congruence. Qed.

(** [pluck] reads the document through one top-level entry only, the
    one under the first segment of the path. *)
Lemma pluck_frame (o o' : document) (path : string) :
  o !! first_segment path = o' !! first_segment path ->
  pluck o path = pluck o' path.
Proof.
  unfold first_segment. intros H.
  destruct (strings_Split path "."%char) as [|seg more] eqn:Hsplit.
  - exfalso. exact (strings_Split_nonempty _ _ Hsplit).
  - rewrite (pluck_segments o path seg more Hsplit).
    rewrite (pluck_segments o' path seg more Hsplit).
    change (part (seg :: more) 0) with seg in H.
    destruct more as [|seg' more']; cbn [resolve_segments]; rewrite H; reflexivity.
Qed.

(** X1. On a key without a dot, [pluck] is the plain map lookup, nil
    for a missing key; so a value stored under such a key is the value
    [pluck] reads back. *)
Theorem pluck_plain_key (o : document) (k : string) (v : value) :
  has_dot k = false ->
  pluck o k = index o k /\ pluck (<[k := v]> o) k = v.
Proof.
  intros Hk.
  assert (Hsplit : strings_Split k "."%char = [k])
    by exact (strings_Split_no_sep k _ Hk).
  split.
  - rewrite (pluck_segments o k k [] Hsplit). reflexivity.
  - rewrite (pluck_segments _ k k [] Hsplit). cbn [resolve_segments].
    rewrite lookup_insert_eq. reflexivity.
Qed.

(** X2. Resolution composes along the path: for a first key [k]
    without a dot, the path [k.rest] resolves to what [rest] resolves
    to in the mapping stored under [k], and to nil when [k] is missing
    or holds anything but a mapping. *)
Theorem pluck_nested (o : document) (k rest : string) :
  has_dot k = false ->
  pluck o (k +:+ "." +:+ rest)
  = match o !! k with
    | Some (VMap m) => pluck m rest
    | _ => VNil
    end.
Proof.
  intros Hk.
  assert (Hsplit : strings_Split (k +:+ "." +:+ rest) "."%char
                   = k :: strings_Split rest "."%char)
    by exact (strings_Split_app k rest _ Hk).
  rewrite (pluck_segments o _ k _ Hsplit).
  destruct (strings_Split rest "."%char) as [|seg more] eqn:Hrest.
  - exfalso. exact (strings_Split_nonempty _ _ Hrest).
  - cbn [resolve_segments].
    destruct (o !! k) as [v|]; [|reflexivity].
    destruct v; try reflexivity.
    rewrite (pluck_segments m rest seg more Hrest). reflexivity.
Qed.

(** X3. What is stored under other top-level keys does not matter:
    writing or deleting a key that is not the first segment of the path
    leaves the resolved value as it was. *)
Theorem pluck_other_key (o : document) (k path : string) (v : value) :
  k <> first_segment path ->
  pluck (<[k := v]> o) path = pluck o path
  /\ pluck (delete k o) path = pluck o path.
Proof.
  intros Hne. split; apply pluck_frame.
  - apply lookup_insert_ne. exact Hne.
  - apply lookup_delete_ne. exact Hne.
Qed.

(** X4. A top-level key that contains a dot cannot be addressed: no
    path resolves to anything that depends on the value stored under
    it. *)
Theorem pluck_dotted_key (o : document) (k : string) (v : value) :
  has_dot k = true ->
  forall path : string,
    pluck (<[k := v]> o) path = pluck (delete k o) path.
Proof.
  intros Hk path.
  assert (Hne : k <> first_segment path)
    by exact (has_sep_true_ne k _ _ Hk (first_segment_no_dot path)).
  apply pluck_frame.
  rewrite lookup_insert_ne by exact Hne.
  rewrite lookup_delete_ne by exact Hne. reflexivity.
Qed.

(** ** Ordering comparisons: floats, unordered kinds, dualities *)

Section EngineFurther.
Context {lib : GoLib}.

(** What [Test] does with a rule whose operands are both present and
    comparable: the verdict of [compare] decides. *)
Lemma Test_body_comparable (f : Rule) (o : document) :
  comparable_value (pluck o (Path f)) ->
  comparable_value (Value f) ->
  Test_body f o =
  do (result, err) <- compare f (pluck o (Path f));
  match err with
  | Some _ => Done (Return false err)
  | None => if negb result then Done (Return false None) else Done Next
  end.
Proof.
  intros (ta & Hta & Hca) (te & Hte & Hce). unfold Test_body.
  destruct (pluck o (Path f)) eqn:Hval; try discriminate Hta;
    cbn [is_nil negb]; rewrite Hta, Hte; cbn [Type_Comparable bind];
    rewrite Hca, Hce; reflexivity.
Qed.

Lemma pluck_plain_present (o : document) (k : string) (v : value) :
  has_dot k = false -> o !! k = Some v -> pluck o k = v.
Proof.
  intros Hk Hv.
  rewrite (pluck_segments o k k [] (strings_Split_no_sep k _ Hk)).
  cbn [resolve_segments]. rewrite Hv. reflexivity.
Qed.

(** X5. Two float64 operands, the numbers of a decoded JSON document,
    are ordered as floating point numbers, and a rule on them passes or
    fails accordingly; two float32 operands make the comparison panic,
    [compareFloat] asserting float64. *)
Theorem inequality_float (r : ordering) (x y : float) :
  inequality (op_code r) (VFloat F64 x) (VFloat F64 y) = Done (float_rel r x y, None)
  /\ inequality (op_code r) (VFloat F32 x) (VFloat F32 y) = Panic
  /\ forall (o : document) (k : string),
      has_dot k = false -> o !! k = Some (VFloat F64 x) ->
      Test {| rules := [rule (ordering_token r) k (VFloat F64 y)] |} o
      = Done (float_rel r x y, None).
Proof.
  assert (H64 : inequality (op_code r) (VFloat F64 x) (VFloat F64 y)
                = Done (float_rel r x y, None)).
  { unfold inequality. cbn. rewrite op_code_cases. destruct r; reflexivity. }
  split; [exact H64|]. split; [reflexivity|].
  intros o k Hk Hv. unfold Test. cbn [rules Test_rules].
  rewrite Test_body_comparable.
  - cbn [Path rule]. rewrite (pluck_plain_present o k _ Hk Hv).
    assert (Hcmp : compare (rule (ordering_token r) k (VFloat F64 y)) (VFloat F64 x)
                   = inequality (op_code r) (VFloat F64 x) (VFloat F64 y))
      by (destruct r; reflexivity).
    rewrite Hcmp, H64. cbn [bind].
    destruct (float_rel r x y); reflexivity.
  - cbn [Path rule]. rewrite (pluck_plain_present o k _ Hk Hv).
    exists (TFloat F64). split; reflexivity.
  - exists (TFloat F64). split; reflexivity.
Qed.

(** X6. Between two operands of one type that has no ordering (two
    booleans, two mappings, two lists) the comparison fails with the
    UnsupportedType error, under every operator; it neither panics nor
    answers. *)
Theorem inequality_unordered (op : Z) (actual expected : value) (t : gotype) :
  typeOf actual = Some t -> typeOf expected = Some t ->
  t = TBool \/ t = TMap \/ t = TSlice ->
  inequality op actual expected = Done (false, Some ErrUnsupportedType).
Proof.
  intros Ha He Ht. unfold inequality. rewrite Ha, He.
  destruct (decide (Some t <> Some t)) as [Hne|_]; [congruence|].
  destruct Ht as [->|[->| ->]]; reflexivity.
Qed.

(** X7. On two int64 or two uint64 operands the four comparators are
    tied as the orderings of numbers are: [a > e] is [e < a], [a >= e]
    is [e <= a], and lte (resp. lt) answers the opposite of gt (resp.
    gte). *)
Theorem inequality_int64_dual (a e : Z) :
  let cmp op x y := inequality op (VInt I64 x) (VInt I64 y) in
  let ucmp op x y := inequality op (VUint U64 x) (VUint U64 y) in
  (cmp Op.gt a e = cmp Op.lt e a /\ cmp Op.gte a e = cmp Op.lte e a
   /\ ucmp Op.gt a e = ucmp Op.lt e a /\ ucmp Op.gte a e = ucmp Op.lte e a)
  /\ (exists b, cmp Op.gt a e = Done (b, None) /\ cmp Op.lte a e = Done (negb b, None)
                /\ ucmp Op.gt a e = Done (b, None)
                /\ ucmp Op.lte a e = Done (negb b, None))
  /\ (exists b, cmp Op.gte a e = Done (b, None) /\ cmp Op.lt a e = Done (negb b, None)
                /\ ucmp Op.gte a e = Done (b, None)
                /\ ucmp Op.lt a e = Done (negb b, None)).
Proof.
  intros cmp ucmp. subst cmp ucmp. cbv beta.
  change Op.gt with (op_code OGt). change Op.gte with (op_code OGte).
  change Op.lt with (op_code OLt). change Op.lte with (op_code OLte).
  rewrite !inequality_int64, !inequality_uint64. cbn [Z_rel].
  rewrite Z.gtb_ltb, Z.geb_leb.
  split; [repeat split|]. split.
  - exists (e <? a)%Z. rewrite (Z.leb_antisym e a). repeat split; reflexivity.
  - exists (e <=? a)%Z. rewrite (Z.ltb_antisym e a). repeat split; reflexivity.
Qed.

(** ** What [Test] keeps and never does *)

Lemma bind_no_error (A : Type) (m : exec A) (k : A -> exec (bool * option error))
      (b : bool) (err : error) :
  (forall x, exists b', k x = Done (b', None)) ->
  bind m k = Done (b, Some err) -> False.
Proof.
  intros Hk H. destruct m as [x|]; [|discriminate H].
  cbn [bind] in H. destruct (Hk x) as [b' Hb']. congruence.
Qed.

Lemma inequality_error_false (op : Z) (actual expected : value)
      (b : bool) (err : error) :
  inequality op actual expected = Done (b, Some err) -> b = false.
Proof.
  unfold inequality.
  destruct (decide _) as [_|_]; [intros H; injection H as <- _; reflexivity|].
  destruct (typeOf actual) as [ty|]; [|discriminate].
  set (cu := compareUint op actual expected).
  set (ci := compareInt op actual expected).
  set (cf := compareFloat op actual expected).
  set (cs := compareStr op actual expected).
  destruct ty as [|[]|[]|[]| | |]; cbn; intros H;
    try (injection H as <- _; reflexivity);
    exfalso; (eapply bind_no_error; [|exact H]); intros x; eexists; reflexivity.
Qed.

Lemma compare_error_false (f : Rule) (actual : value) (b : bool) (err : error) :
  compare f actual = Done (b, Some err) -> b = false.
Proof.
  unfold compare.
  repeat match goal with
         | |- context [String.eqb (Comparator f) ?t] =>
             destruct (String.eqb (Comparator f) t)
         end; cbn [orb]; intros H;
    try (exfalso; (eapply bind_no_error; [|exact H]); intros x; eexists; reflexivity);
    try (exact (inequality_error_false _ _ _ _ _ H));
    try (exact (regexp_error_false _ _ _ _ H));
    try (destruct (is_nil actual); cbn in H; discriminate H);
    try (injection H as <- _; reflexivity).
  destruct (regexp_returns actual (Value f)) as (b0 & e0 & Hr).
  rewrite Hr in H. cbn [bind] in H.
  destruct e0; [injection H as <- _; reflexivity | discriminate H].
Qed.

Lemma Test_body_error_false (f : Rule) (o : document) (b : bool) (err : error) :
  Test_body f o = Done (Return b (Some err)) -> b = false.
Proof.
  unfold Test_body.
  destruct (is_nil (pluck o (Path f))); cbn [negb andb].
  - destruct (_ || _)%bool.
    + destruct (compare f (pluck o (Path f))) as [[b0 e0]|] eqn:Hc;
        cbn [bind]; [|discriminate].
      intros H. injection H as -> ->. exact (compare_error_false _ _ _ _ Hc).
    + intros H. injection H as <- _. reflexivity.
  - destruct (Type_Comparable (typeOf (pluck o (Path f)))) as [[]|];
      cbn [bind negb]; try discriminate.
    destruct (Type_Comparable (typeOf (Value f))) as [[]|];
      cbn [bind negb]; try discriminate.
    destruct (compare f (pluck o (Path f))) as [[b0 e0]|]; cbn [bind];
      [|discriminate].
    destruct e0; [intros H; injection H as <- _; reflexivity|].
    destruct (negb b0); discriminate.
Qed.

(** X8. An error never comes with a true verdict: whenever [Test]
    returns an error, the boolean beside it is false. *)
Theorem Test_error_false (r : Ruler) (o : document) (b : bool) (err : error) :
  Test r o = Done (b, Some err) -> b = false.
Proof.
  unfold Test. induction (rules r) as [|f rest IH]; cbn [Test_rules].
  - discriminate.
  - destruct (Test_body f o) as [[|b0 e0]|] eqn:Hf; cbn [bind].
    + exact IH.
    + intros H. injection H as -> ->. exact (Test_body_error_false _ _ _ _ Hf).
    + discriminate.
Qed.

(** X9. Failure is final: when a rule set does not evaluate to true
    without error (it is false, fails with an error, or panics), every
    rule set that extends it evaluates to the very same outcome. *)
Theorem Test_extend_failure (rs more : list Rule) (o : document) :
  Test {| rules := rs |} o <> Done (true, None) ->
  Test {| rules := rs ++ more |} o = Test {| rules := rs |} o.
Proof.
  unfold Test. cbn [rules].
  induction rs as [|f rest IH]; cbn [app Test_rules]; [congruence|].
  destruct (Test_body f o) as [[|b e]|]; cbn [bind]; [exact IH | reflexivity..].
Qed.

Lemma Test_single_true (g : Rule) (o : document) :
  Test {| rules := [g] |} o = Done (true, None) ->
  Test_body g o = Done Next \/ Test_body g o = Done (Return true None).
Proof.
  unfold Test. cbn [rules Test_rules].
  destruct (Test_body g o) as [[|b e]|]; cbn [bind]; [auto| |discriminate].
  intros H. injection H as -> ->. auto.
Qed.

Lemma Test_rules_all_true (rs : list Rule) (o : document) :
  Forall (fun g => Test {| rules := [g] |} o = Done (true, None)) rs ->
  Test_rules rs o = Done (true, None).
Proof.
  induction 1 as [|g rs Hg _ IH]; [reflexivity|].
  cbn [Test_rules].
  destruct (Test_single_true g o Hg) as [-> | ->]; cbn [bind]; [exact IH|reflexivity].
Qed.

(** X10. When every rule of a set, evaluated alone, is true, the set is
    true, in whatever order its rules are listed. *)
Theorem Test_all_true (rs rs' : list Rule) (o : document) :
  Forall (fun g => Test {| rules := [g] |} o = Done (true, None)) rs ->
  Permutation rs rs' ->
  Test {| rules := rs' |} o = Done (true, None).
Proof.
  intros Hall Hperm. unfold Test. cbn [rules].
  apply Test_rules_all_true.
  exact (Permutation_Forall Hperm Hall).
Qed.

Lemma Test_body_same_value (f : Rule) (o o' : document) :
  pluck o (Path f) = pluck o' (Path f) -> Test_body f o = Test_body f o'.
Proof. intros H. unfold Test_body. rewrite H. reflexivity. Qed.

(** X11. [Test] sees the document only through the values under the
    paths of its rules: two documents that resolve each of these paths
    alike get the same outcome. *)
Theorem Test_same_values (r : Ruler) (o o' : document) :
  Forall (fun f => pluck o (Path f) = pluck o' (Path f)) (rules r) ->
  Test r o = Test r o'.
Proof.
  unfold Test. induction 1 as [|f rest Hf _ IH]; [reflexivity|].
  cbn [Test_rules]. rewrite (Test_body_same_value f o o' Hf), IH. reflexivity.
Qed.

(** ** Edge cases of the dispatcher *)

Lemma Test_head (f : Rule) (rest : list Rule) (o : document) :
  Test {| rules := f :: rest |} o =
  do c <- Test_body f o;
  match c with
  | Next => Test {| rules := rest |} o
  | Return b err => Done (b, err)
  end.
Proof. reflexivity. Qed.

(** X12. A rule whose expected value is nil makes [Test] panic as soon
    as its path resolves to a comparable value, whatever the
    comparator, exists and nexists included: the type of the expected
    value is asked whether it is comparable, and nil has none. *)
Theorem Test_nil_expected (f : Rule) (rest : list Rule) (o : document) :
  comparable_value (pluck o (Path f)) ->
  Value f = VNil ->
  Test {| rules := f :: rest |} o = Panic.
Proof.
  intros (t & Ht & Hc) Hnil. rewrite Test_head. unfold Test_body.
  destruct (pluck o (Path f)); try discriminate Ht;
    cbn [is_nil negb]; rewrite Ht, Hnil; cbn [Type_Comparable typeOf bind];
    rewrite Hc; reflexivity.
Qed.

(** X13. On a present, comparable value (the expected value being
    comparable too) a rule exists is passed over and the following
    rules decide, and a rule nexists ends the evaluation with false. *)
Theorem Test_exists_present (f : Rule) (rest : list Rule) (o : document) :
  comparable_value (pluck o (Path f)) ->
  comparable_value (Value f) ->
  (Comparator f = "exists" ->
   Test {| rules := f :: rest |} o = Test {| rules := rest |} o)
  /\ (Comparator f = "nexists" ->
      Test {| rules := f :: rest |} o = Done (false, None)).
Proof.
  intros Ha He. rewrite Test_head, (Test_body_comparable f o Ha He).
  destruct Ha as (t & Ht & _).
  assert (Hnn : is_nil (pluck o (Path f)) = false)
    by (destruct (pluck o (Path f)); [discriminate Ht | reflexivity..]).
  split; intros Hc; unfold compare; rewrite Hc; cbn; rewrite Hnn; reflexivity.
Qed.

Lemma compare_unknown (f : Rule) (actual : value) :
  ~ In (Comparator f) known_tokens ->
  compare f actual = Done (false, Some ErrUnknownComparator).
Proof.
  intros Hnot. unfold compare.
  repeat match goal with
         | |- context [String.eqb (Comparator f) ?t] =>
             let E := fresh "E" in
             destruct (String.eqb_spec (Comparator f) t) as [E|_];
             [exfalso; apply Hnot; rewrite E; cbn; tauto|]
         end.
  reflexivity.
Qed.

(** X14. A comparator token that is none of the twelve, for instance
    one in another case, is an error and not a false verdict: on
    present comparable operands [Test] fails with the UnknownComparator
    error. *)
Theorem Test_unknown_comparator (f : Rule) (rest : list Rule) (o : document) :
  ~ In (Comparator f) known_tokens ->
  comparable_value (pluck o (Path f)) ->
  comparable_value (Value f) ->
  Test {| rules := f :: rest |} o = Done (false, Some ErrUnknownComparator).
Proof.
  intros Hnot Ha He.
  rewrite Test_head, (Test_body_comparable f o Ha He), (compare_unknown f _ Hnot).
  reflexivity.
Qed.

Lemma compare_pattern_token (f : Rule) (actual : value) :
  In (Comparator f) pattern_tokens ->
  forall err, regexp actual (Value f) = Done (false, Some err) ->
              compare f actual = Done (false, Some err).
Proof.
  intros Hin err Hr. unfold compare.
  destruct Hin as [<-|[<-|[<-|[<-|[]]]]]; cbn; rewrite Hr; reflexivity.
Qed.

(** X15. The pattern comparators want two texts.  On present comparable
    operands, an expected value that is not a text is the error
    "expected value not actually a string", whatever the actual value
    is; a text pattern against an actual value that is not a text is
    the error "actual value not actually a string".  Neither is a false
    verdict, also under ncontains. *)
Theorem Test_pattern_operands (f : Rule) (rest : list Rule) (o : document) :
  In (Comparator f) pattern_tokens ->
  comparable_value (pluck o (Path f)) ->
  comparable_value (Value f) ->
  (typeOf (Value f) <> Some TString ->
   Test {| rules := f :: rest |} o = Done (false, Some ErrExpectedNotText))
  /\ (typeOf (Value f) = Some TString ->
      typeOf (pluck o (Path f)) <> Some TString ->
      Test {| rules := f :: rest |} o = Done (false, Some ErrActualNotText)).
Proof.
  intros Hin Ha He. rewrite Test_head, (Test_body_comparable f o Ha He).
  split.
  - intros Hne.
    rewrite (compare_pattern_token f _ Hin ErrExpectedNotText); [reflexivity|].
    unfold regexp. destruct (Value f); try reflexivity. cbn in Hne. congruence.
  - intros Hs Hne.
    rewrite (compare_pattern_token f _ Hin ErrActualNotText); [reflexivity|].
    unfold regexp. destruct (Value f); try discriminate Hs.
    destruct (pluck o (Path f)); try reflexivity. cbn in Hne. congruence.
Qed.

Lemma Test_rules_replace (pre rest : list Rule) (f g : Rule) (o : document) :
  Test_body f o = Test_body g o ->
  Test_rules (pre ++ f :: rest) o = Test_rules (pre ++ g :: rest) o.
Proof.
  intros H. induction pre as [|h pre IH]; cbn [app Test_rules].
  - rewrite H. reflexivity.
  - rewrite IH. reflexivity.
Qed.

(** X16. regex, contains and matches are one comparator under three
    names: replacing one by another in a rule, anywhere in a rule set,
    changes nothing in the outcome. *)
Theorem Test_pattern_aliases (pre rest : list Rule) (c c' p : string) (v : value)
        (o : document) :
  In c ["regex"; "contains"; "matches"]%string ->
  In c' ["regex"; "contains"; "matches"]%string ->
  Test {| rules := pre ++ rule c p v :: rest |} o
  = Test {| rules := pre ++ rule c' p v :: rest |} o.
Proof.
  intros Hc Hc'. unfold Test. cbn [rules]. apply Test_rules_replace.
  destruct Hc as [<-|[<-|[<-|[]]]]; destruct Hc' as [<-|[<-|[<-|[]]]];
    reflexivity.
Qed.

(** X17. contains and ncontains are complementary on texts: with a
    pattern that compiles, against a text stored under a key without a
    dot, the rule contains gives what the match gives and the rule
    ncontains the opposite, both without error. *)
Theorem Test_contains_ncontains (o : document) (k p s : string) (re : Regexp) :
  has_dot k = false ->
  o !! k = Some (VString s) ->
  regexp_Compile p = Some re ->
  Test {| rules := [rule "contains" k (VString p)] |} o
  = Done (Regexp_MatchString re s, None)
  /\ Test {| rules := [rule "ncontains" k (VString p)] |} o
     = Done (negb (Regexp_MatchString re s), None).
Proof.
  intros Hk Hv Hre.
  assert (Hval : pluck o k = VString s) by exact (pluck_plain_present o k _ Hk Hv).
  split; rewrite Test_head, Test_body_comparable;
    cbn [Path Value rule]; rewrite ?Hval;
    try (exists TString; split; reflexivity).
  - unfold compare, regexp. cbn. rewrite Hre. cbn.
    destruct (Regexp_MatchString re s); reflexivity.
  - unfold compare, regexp. cbn. rewrite Hre. cbn.
    destruct (Regexp_MatchString re s); reflexivity.
Qed.

(** ** The constructors *)


End EngineFurther.

(** A ruler built from the nil slice has no rule and accepts every
    document. *)
Lemma NewRuler_nil_accepts (lib : GoLib) (o : document) :
  Test (NewRuler None) o = Done (true, None)
  /\ forall rs, NewRuler (Some rs) = {| rules := rs |}.
Proof. split; reflexivity. Qed.

(** ** The further properties on concrete documents *)

Lemma pluck_plain_key_witness :
  has_dot "a" = false
  /\ pluck doc_a1 "a" = index doc_a1 "a"
  /\ pluck (<["a" := VBool true]> doc_a1) "a" = VBool true.
Proof.
  split; [reflexivity|].
  exact (pluck_plain_key doc_a1 "a" (VBool true) eq_refl).
Defined.

Lemma pluck_nested_witness :
  has_dot "a" = false
  /\ pluck doc_abc ("a" +:+ "." +:+ "b.c") = VInt IWord 5.
Proof.
  split; [reflexivity|].
  rewrite (pluck_nested doc_abc "a" "b.c" eq_refl). reflexivity.
Defined.

Lemma pluck_other_key_witness :
  "m"%string <> first_segment "a.b.c"
  /\ pluck (<["m" := VNil]> doc_abc) "a.b.c" = pluck doc_abc "a.b.c".
Proof.
  assert (Hne : "m"%string <> first_segment "a.b.c") by (vm_compute; discriminate).
  split; [exact Hne|].
  exact (proj1 (pluck_other_key doc_abc "m" "a.b.c" VNil Hne)).
Defined.

Lemma pluck_dotted_key_witness :
  has_dot "a.b" = true
  /\ pluck (<["a.b" := VBool true]> doc_abc) "a.b"
     = pluck (delete "a.b" doc_abc) "a.b".
Proof.
  split; [reflexivity|].
  exact (pluck_dotted_key doc_abc "a.b" (VBool true) eq_refl "a.b").
Defined.

Lemma inequality_float_witness :
  doc_person !! "age" = Some (VFloat F64 9)
  /\ Test (lib := literal_lib) {| rules := [rule "gt" "age" (VFloat F64 10)] |}
          doc_person = Done (false, None)
  /\ Test (lib := literal_lib) {| rules := [rule "lte" "age" (VFloat F64 10)] |}
          doc_person = Done (true, None).
Proof.
  assert (Hage : doc_person !! "age" = Some (VFloat F64 9)) by reflexivity.
  split; [exact Hage|]. split.
  - exact (proj2 (proj2 (inequality_float (lib := literal_lib) OGt 9 10))
             doc_person "age" eq_refl Hage).
  - exact (proj2 (proj2 (inequality_float (lib := literal_lib) OLte 9 10))
             doc_person "age" eq_refl Hage).
Defined.

Lemma inequality_unordered_witness :
  inequality (lib := literal_lib) Op.gt (VBool true) (VBool false)
  = Done (false, Some ErrUnsupportedType).
Proof.
  exact (inequality_unordered (lib := literal_lib) Op.gt (VBool true) (VBool false)
           TBool eq_refl eq_refl (or_introl eq_refl)).
Defined.

Lemma Test_error_false_witness :
  Test (lib := literal_lib) {| rules := [rule "eq" "x" (VInt IWord 1)] |} doc_a1
  = Done (false, Some (ErrMissingProperty "x"))
  /\ false = false.
Proof.
  assert (H : Test (lib := literal_lib) {| rules := [rule "eq" "x" (VInt IWord 1)] |}
                   doc_a1 = Done (false, Some (ErrMissingProperty "x")))
    by reflexivity.
  split; [exact H|].
  exact (Test_error_false (lib := literal_lib) _ doc_a1 false _ H).
Defined.

Lemma Test_extend_failure_witness :
  let rs := [rule "eq" "a" (VInt IWord 2)] in
  let more := [rule "nexists" "x" (VBool true)] in
  Test (lib := literal_lib) {| rules := rs |} doc_a1 <> Done (true, None)
  /\ Test (lib := literal_lib) {| rules := rs ++ more |} doc_a1
     = Test (lib := literal_lib) {| rules := rs |} doc_a1.
Proof.
  intros rs more.
  assert (H : Test (lib := literal_lib) {| rules := rs |} doc_a1 <> Done (true, None))
    by (vm_compute; discriminate).
  split; [exact H|].
  exact (Test_extend_failure (lib := literal_lib) rs more doc_a1 H).
Defined.

Lemma Test_all_true_witness :
  let r1 := rule "eq" "a" (VInt IWord 1) in
  let r2 := rule "exists" "a" (VBool true) in
  Test (lib := literal_lib) {| rules := [r2; r1] |} doc_a1 = Done (true, None).
Proof.
  intros r1 r2.
  apply (Test_all_true (lib := literal_lib) [r1; r2] [r2; r1] doc_a1).
  - apply List.Forall_cons; [reflexivity|].
    apply List.Forall_cons; [reflexivity|apply List.Forall_nil].
  - apply perm_swap.
Defined.

Lemma Test_same_values_witness :
  let r := {| rules := [rule "eq" "a" (VInt IWord 1)] |} in
  Test (lib := literal_lib) r doc_a1 = Test (lib := literal_lib) r doc_mixed.
Proof.
  intros r. apply (Test_same_values (lib := literal_lib) r doc_a1 doc_mixed).
  apply List.Forall_cons; [reflexivity|apply List.Forall_nil].
Defined.

Lemma Test_nil_expected_witness :
  comparable_value (pluck doc_a1 "a")
  /\ Test (lib := literal_lib) {| rules := [rule "exists" "a" VNil] |} doc_a1 = Panic.
Proof.
  assert (H : comparable_value (pluck doc_a1 "a"))
    by (exists (TInt IWord); split; reflexivity).
  split; [exact H|].
  exact (Test_nil_expected (lib := literal_lib) (rule "exists" "a" VNil) []
           doc_a1 H eq_refl).
Defined.

Lemma Test_exists_present_witness :
  let f := rule "exists" "a" (VBool true) in
  let g := rule "nexists" "a" (VBool true) in
  let rest := [rule "eq" "a" (VInt IWord 1)] in
  Test (lib := literal_lib) {| rules := f :: rest |} doc_a1
  = Test (lib := literal_lib) {| rules := rest |} doc_a1
  /\ Test (lib := literal_lib) {| rules := g :: rest |} doc_a1 = Done (false, None).
Proof.
  intros f g rest.
  assert (Ha : comparable_value (pluck doc_a1 "a"))
    by (exists (TInt IWord); split; reflexivity).
  assert (He : comparable_value (VBool true))
    by (exists TBool; split; reflexivity).
  split.
  - exact (proj1 (Test_exists_present (lib := literal_lib) f rest doc_a1 Ha He) eq_refl).
  - exact (proj2 (Test_exists_present (lib := literal_lib) g rest doc_a1 Ha He) eq_refl).
Defined.

Lemma Test_unknown_comparator_witness :
  ~ In "EQ"%string known_tokens
  /\ Test (lib := literal_lib) {| rules := [rule "EQ" "a" (VInt IWord 1)] |} doc_a1
     = Done (false, Some ErrUnknownComparator).
Proof.
  assert (Hnot : ~ In "EQ"%string known_tokens).
  { cbn. intros H. repeat (destruct H as [H|H]; [discriminate H|]). exact H. }
  split; [exact Hnot|].
  apply (Test_unknown_comparator (lib := literal_lib)
           (rule "EQ" "a" (VInt IWord 1)) [] doc_a1 Hnot).
  - exists (TInt IWord). split; reflexivity.
  - exists (TInt IWord). split; reflexivity.
Defined.

Lemma Test_pattern_operands_witness :
  Test (lib := literal_lib) {| rules := [rule "ncontains" "a" (VString "1")] |} doc_a1
  = Done (false, Some ErrActualNotText)
  /\ Test (lib := literal_lib) {| rules := [rule "contains" "name" (VInt IWord 1)] |}
          doc_person = Done (false, Some ErrExpectedNotText).
Proof.
  split.
  - apply (Test_pattern_operands (lib := literal_lib)
             (rule "ncontains" "a" (VString "1")) [] doc_a1).
    + cbn. tauto.
    + exists (TInt IWord). split; reflexivity.
    + exists TString. split; reflexivity.
    + reflexivity.
    + vm_compute. discriminate.
  - apply (Test_pattern_operands (lib := literal_lib)
             (rule "contains" "name" (VInt IWord 1)) [] doc_person).
    + cbn. tauto.
    + exists TString. split; reflexivity.
    + exists (TInt IWord). split; reflexivity.
    + cbn. discriminate.
Defined.

Lemma Test_pattern_aliases_witness :
  Test (lib := literal_lib)
       {| rules := [] ++ rule "regex" "name" (VString "li") :: [] |} doc_person
  = Test (lib := literal_lib)
         {| rules := [] ++ rule "matches" "name" (VString "li") :: [] |} doc_person.
Proof.
  apply (Test_pattern_aliases (lib := literal_lib) [] [] "regex" "matches").
  - cbn. tauto.
  - cbn. tauto.
Defined.

Lemma Test_contains_ncontains_witness :
  Test (lib := literal_lib) {| rules := [rule "contains" "name" (VString "li")] |}
       doc_person = Done (true, None)
  /\ Test (lib := literal_lib) {| rules := [rule "ncontains" "name" (VString "li")] |}
          doc_person = Done (false, None).
Proof.
  exact (Test_contains_ncontains (lib := literal_lib) doc_person "name" "li" "Alice"
           "li"%string eq_refl eq_refl eq_refl).
Defined.

